(** * To-Do API: a shallow embedding of [backend/main.py]

    The service keeps one table of tasks and exposes it through six
    routes.  The handlers of [main.py] are embedded as computations in
    a small state-and-exception monad over the table; the model
    classes ([TaskBase], [TaskCreate], [TaskUpdate], [TaskResponse])
    are records with their field defaults written out.

    The ORM class [models.Task] and the session of [database.py] are
    not part of the handler module; the table and the session calls
    the handlers make are modelled in the section on the store below. *)

From Stdlib Require Import ZArith List String Bool Lia Sorted.
Import ListNotations.

Open Scope string_scope.
Open Scope list_scope.
Open Scope Z_scope.

(** ** Request bodies *)

(** A member of a JSON request body, seen from a model class: the key
    is missing, it is there with [null], or it is there with a value
    of the field's type.  A member of another type is outside this
    view: before any handler runs the framework converts it to the
    field's type where it can, and answers 422 where it cannot. *)
Inductive field (A : Type) : Type :=
| Omitted
| Null
| Value (a : A).

Arguments Omitted {A}.
Arguments Null {A}.
Arguments Value {A} a.

(** The object sent with POST /tasks and PUT /tasks/{id}.  [extra] are
    the members no model class declares, as raw text; the model classes
    keep the default configuration, which drops them. *)
Module Body.
Record t : Type := mk {
  title : field string;
  description : field string;
  completed : field bool;
  extra : list (string * string)
}.
End Body.

(** ** Pydantic schemas *)

(** [class TaskBase(BaseModel)]:
    [title: str], [description: Optional[str] = ""],
    [completed: bool = False];  [class TaskCreate(TaskBase): pass]. *)
Module TaskCreate.
Record t : Type := mk {
  title : string;
  description : option string;
  completed : bool
}.

(** Validation of a body against the class; [None] is the 422 answer.
    [title] is required and not optional, [description] is optional
    with default [""], [completed] is not optional, default [False]. *)
Definition validate (b : Body.t) : option t :=
  match Body.title b with
  | Value title =>
      let description :=
        match Body.description b with
        | Omitted => Some ""
        | Null => None
        | Value d => Some d
        end in
      match Body.completed b with
      | Omitted => Some (mk title description false)
      | Null => None
      | Value c => Some (mk title description c)
      end
  | Omitted | Null => None
  end.
End TaskCreate.

(** [class TaskUpdate(BaseModel)]: every field [Optional[...] = None]. *)
Module TaskUpdate.
Record t : Type := mk {
  title : option string;
  description : option string;
  completed : option bool
}.

Definition optional {A : Type} (f : field A) : option A :=
  match f with
  | Omitted => None
  | Null => None
  | Value a => Some a
  end.

(** Never fails: each member may be missing or null. *)
Definition validate (b : Body.t) : t :=
  mk (optional (Body.title b))
     (optional (Body.description b))
     (optional (Body.completed b)).
End TaskUpdate.

(** ** The store *)

(** Points in time, as the store's clock counts them. *)
Definition datetime : Type := Z.

(** Modelled from the spec: the ORM class [models.Task] is not in the
    handler module.  Its columns are those of the persisted table:
    [id] (integer, primary key, auto-increment), [title] (text),
    [description] (text, nullable), [completed] (boolean) and
    [created_at] (timestamp, set at insert). *)
Module Task.
Record t : Type := mk {
  id : Z;
  title : string;
  description : option string;
  completed : bool;
  created_at : datetime
}.

(** [db_task.title = v] and its siblings. *)
Definition set_title (v : string) (r : t) : t :=
  mk (id r) v (description r) (completed r) (created_at r).
Definition set_description (v : string) (r : t) : t :=
  mk (id r) (title r) (Some v) (completed r) (created_at r).
Definition set_completed (v : bool) (r : t) : t :=
  mk (id r) (title r) (description r) v (created_at r).

(** [Task(title=..., description=..., completed=...)]: an object not
    yet in the table; it has neither [id] nor [created_at]. *)
Record transient : Type := new {
  new_title : string;
  new_description : option string;
  new_completed : bool
}.

(** Modelled from the spec: the default of the [description] column,
    which the insert takes when the object's attribute is [None]; the
    store's column default is null. *)
Definition description_default : option string := None.
End Task.

(** Modelled from the spec: the table behind the session of
    [database.py].  The rows are kept in insertion order, and
    [next_id] is the next identity value the store hands out. *)
Record Store : Type := mkStore {
  rows : list Task.t;
  next_id : Z
}.

(** The table as [create_all] leaves it; the first identity is 1. *)
Definition empty_store : Store := mkStore [] 1.

Definition has_id (task_id : Z) (r : Task.t) : bool :=
  Task.id r =? task_id.

(** ** Handler computations *)

(** What a handler raises. *)
Record HTTPException : Type := mkHTTPException {
  exc_status_code : Z;
  exc_detail : string
}.

Inductive result (A : Type) : Type :=
| Return (a : A)
| Raise (e : HTTPException).

Arguments Return {A} a.
Arguments Raise {A} e.

(** A handler runs against the store, and returns or raises. *)
Definition M (A : Type) : Type := Store -> result A * Store.

Definition ret {A : Type} (a : A) : M A := fun db => (Return a, db).

Definition raise {A : Type} (e : HTTPException) : M A :=
  fun db => (Raise e, db).

Definition bind {A B : Type} (m : M A) (k : A -> M B) : M B :=
  fun db =>
    match m db with
    | (Return a, db') => k a db'
    | (Raise e, db') => (Raise e, db')
    end.

Declare Scope handler_scope.
Delimit Scope handler_scope with handler.

Notation "x <- m ;; k" := (bind m (fun x => k))
  (at level 100, m at next level, right associativity) : handler_scope.
Notation "m ;; k" := (bind m (fun _ => k))
  (at level 100, right associativity) : handler_scope.

Open Scope handler_scope.

(** *** Session calls

    The calls the handlers make on the session ([db.query], [db.add],
    [db.commit], [db.refresh], [db.delete]) act on the table as the
    store operations of the spec do: [get_all], [get_by_id], [create],
    [update], [delete]. *)

(** Modelled from the spec: [db.query(Task).all()] is the store's
    [get_all]: every record, in insertion order. *)
Definition query_all : M (list Task.t) :=
  fun db => (Return (rows db), db).

(** Modelled from the spec:
    [db.query(Task).filter(Task.id == task_id).first()] is the store's
    [get_by_id]: the row with the id, or nothing. *)
Definition query_first (task_id : Z) : M (option Task.t) :=
  fun db => (Return (find (has_id task_id) (rows db)), db).

(** Modelled from the spec: [db.add(db_task); db.commit()] is the
    store's [create], the insert.  The store assigns the
    next identity value and stamps [created_at] with its own clock,
    whose reading at the insert is [now].  An attribute that is [None]
    is left out of the insert, and its column takes the column default. *)
Definition add_commit (now : datetime) (o : Task.transient) : M Z :=
  fun db =>
    let description :=
      match Task.new_description o with
      | Some d => Some d
      | None => Task.description_default
      end in
    let r := Task.mk (next_id db) (Task.new_title o) description
                     (Task.new_completed o) now in
    (Return (next_id db), mkStore (rows db ++ [r]) (next_id db + 1)).

(** Modelled from the spec: [db.commit()] after attribute assignments
    on a loaded object is the store's [update]: the row with the
    object's primary key takes the object's values, in place. *)
Definition commit (o : Task.t) : M unit :=
  fun db =>
    (Return tt,
     mkStore (map (fun r => if has_id (Task.id o) r then o else r) (rows db))
             (next_id db)).

(** Modelled from the spec: [db.refresh(db_task)] reads the object
    again by primary key; a row that is gone is an error of the
    session, which no handler catches. *)
Definition refresh (task_id : Z) : M Task.t :=
  fun db =>
    match find (has_id task_id) (rows db) with
    | Some r => (Return r, db)
    | None => (Raise (mkHTTPException 500 "Internal Server Error"), db)
    end.

(** Modelled from the spec: [db.delete(db_task); db.commit()] is the
    store's [delete]: the row with the object's primary key goes. *)
Definition delete_commit (o : Task.t) : M unit :=
  fun db =>
    (Return tt,
     mkStore (filter (fun r => negb (has_id (Task.id o) r)) (rows db))
             (next_id db)).

(** *** Routes *)

(** [GET /tasks] *)
Definition get_tasks : M (list Task.t) :=
  tasks <- query_all ;;
  ret tasks.

(** [POST /tasks] *)
Definition create_task (now : datetime) (task : TaskCreate.t) : M Task.t :=
  let db_task := Task.new (TaskCreate.title task)
                          (TaskCreate.description task)
                          (TaskCreate.completed task) in
  task_id <- add_commit now db_task ;;
  db_task <- refresh task_id ;;
  ret db_task.

Definition not_found : HTTPException := mkHTTPException 404 "Task not found".

(** [GET /tasks/{task_id}] *)
Definition get_task (task_id : Z) : M Task.t :=
  db_task <- query_first task_id ;;
  match db_task with
  | None => raise not_found
  | Some db_task => ret db_task
  end.

(** [PUT /tasks/{task_id}] *)
Definition update_task (task_id : Z) (task : TaskUpdate.t) : M Task.t :=
  db_task <- query_first task_id ;;
  match db_task with
  | None => raise not_found
  | Some db_task =>
      let db_task :=
        match TaskUpdate.title task with
        | Some v => Task.set_title v db_task
        | None => db_task
        end in
      let db_task :=
        match TaskUpdate.description task with
        | Some v => Task.set_description v db_task
        | None => db_task
        end in
      let db_task :=
        match TaskUpdate.completed task with
        | Some v => Task.set_completed v db_task
        | None => db_task
        end in
      commit db_task ;;
      db_task <- refresh (Task.id db_task) ;;
      ret db_task
  end.

(** [DELETE /tasks/{task_id}] *)
Definition delete_task (task_id : Z) : M string :=
  db_task <- query_first task_id ;;
  match db_task with
  | None => raise not_found
  | Some db_task =>
      delete_commit db_task ;;
      ret "Task deleted successfully"
  end.

(** [GET /] *)
Definition root : M string := ret "To-Do API is running".

(** ** The application *)

(** [class TaskResponse(TaskBase)] with [id: int] and
    [created_at: datetime], read from the attributes of a row. *)
Module TaskResponse.
Record t : Type := mk {
  id : Z;
  title : string;
  description : option string;
  completed : bool;
  created_at : datetime
}.

Definition from_attributes (r : Task.t) : t :=
  mk (Task.id r) (Task.title r) (Task.description r) (Task.completed r)
     (Task.created_at r).
End TaskResponse.

(** The JSON a response carries. *)
Inductive Content : Type :=
| TaskJson (t : TaskResponse.t)
| TaskListJson (l : list TaskResponse.t)
| MessageJson (message : string)
| DetailJson (detail : string)
| ValidationErrorJson.

Record Response : Type := mkResponse {
  status_code : Z;
  content : Content
}.

Inductive Request : Type :=
| GET_root
| GET_tasks
| POST_tasks (body : Body.t)
| GET_task (task_id : Z)
| PUT_task (task_id : Z) (body : Body.t)
| DELETE_task (task_id : Z).

(** A handler's outcome as a response: the returned value through the
    route's response model with status 200, a raised exception as its
    status with [{"detail": ...}]. *)
Definition respond {A : Type} (render : A -> Content) (m : M A)
  : Store -> Response * Store :=
  fun db =>
    match m db with
    | (Return a, db') => (mkResponse 200 (render a), db')
    | (Raise e, db') => (mkResponse (exc_status_code e) (DetailJson (exc_detail e)), db')
    end.

Definition unprocessable : Response := mkResponse 422 ValidationErrorJson.

(** One request served at store time [now]. *)
Definition app (now : datetime) (rq : Request) : Store -> Response * Store :=
  match rq with
  | GET_root => respond MessageJson root
  | GET_tasks =>
      respond (fun l => TaskListJson (map TaskResponse.from_attributes l)) get_tasks
  | POST_tasks body =>
      match TaskCreate.validate body with
      | Some task =>
          respond (fun r => TaskJson (TaskResponse.from_attributes r))
                  (create_task now task)
      | None => fun db => (unprocessable, db)
      end
  | GET_task task_id =>
      respond (fun r => TaskJson (TaskResponse.from_attributes r)) (get_task task_id)
  | PUT_task task_id body =>
      respond (fun r => TaskJson (TaskResponse.from_attributes r))
              (update_task task_id (TaskUpdate.validate body))
  | DELETE_task task_id => respond MessageJson (delete_task task_id)
  end.

(** The store after a sequence of requests, each with its clock reading. *)
Fixpoint serve (rqs : list (datetime * Request)) (db : Store) : Store :=
  match rqs with
  | [] => db
  | (now, rq) :: rqs' => serve rqs' (snd (app now rq db))
  end.

(** ** Invariants of the store *)

Definition ids (db : Store) : list Z := map Task.id (rows db).

(** What identifies a record for its lifetime. *)
Definition identity (r : Task.t) : Z * datetime :=
  (Task.id r, Task.created_at r).

Definition identities (db : Store) : list (Z * datetime) :=
  map identity (rows db).

(** The primary key: the ids in the table ascend strictly (so no two
    rows share one), and all lie below the next identity value. *)
Definition wf (db : Store) : Prop :=
  StronglySorted Z.lt (ids db) /\ Forall (fun i => i < next_id db) (ids db).

(** The stores the application can be in. *)
Inductive reachable : Store -> Prop :=
| reachable_empty : reachable empty_store
| reachable_step now rq db :
    reachable db -> reachable (snd (app now rq db)).

(** No row of [l] has the id [i]. *)
Definition others (i : Z) (l : list Task.t) : Prop :=
  Forall (fun r => has_id i r = false) l.

(** The attribute assignments of [update_task], on their own. *)
Definition assign (task : TaskUpdate.t) (r : Task.t) : Task.t :=
  let r := match TaskUpdate.title task with
           | Some v => Task.set_title v r
           | None => r
           end in
  let r := match TaskUpdate.description task with
           | Some v => Task.set_description v r
           | None => r
           end in
  match TaskUpdate.completed task with
  | Some v => Task.set_completed v r
  | None => r
  end.

(** The row an insert writes. *)
Definition inserted (now : datetime) (task : TaskCreate.t) (db : Store) : Task.t :=
  Task.mk (next_id db) (TaskCreate.title task)
          (match TaskCreate.description task with
           | Some d => Some d
           | None => Task.description_default
           end)
          (TaskCreate.completed task) now.

(** An accepted POST as a whole: the answer with the created task, and
    the table with the row of that task after the rows it had. *)
Definition created_task (now : datetime) (db : Store) (title : string)
    (description : option string) (completed : bool) : Response * Store :=
  (mkResponse 200
     (TaskJson (TaskResponse.mk (next_id db) title description completed now)),
   mkStore (rows db ++ [Task.mk (next_id db) title description completed now])
           (next_id db + 1)).

(** A body member that carries no value: missing, or null. *)
Definition unset {A : Type} (f : field A) : Prop :=
  match f with
  | Value _ => False
  | Omitted | Null => True
  end.

Definition ok (c : Content) : Response := mkResponse 200 c.

Definition task_json (r : Task.t) : Content :=
  TaskJson (TaskResponse.from_attributes r).

Definition task_not_found : Response :=
  mkResponse 404 (DetailJson "Task not found").

(** Creations in a row, each with the store's time of its insert. *)
Definition posts (l : list (datetime * Body.t)) : list (datetime * Request) :=
  map (fun p => (fst p, POST_tasks (snd p))) l.

(** ** Sample requests and stores *)

Definition only_title (s : string) : Body.t :=
  Body.mk (Value s) Omitted Omitted [].

Definition three_tasks : Store :=
  serve [(10, POST_tasks (only_title "Task 1"));
         (20, POST_tasks (only_title "Task 2"));
         (30, POST_tasks (only_title "Task 3"))] empty_store.

(** The task of the partial-update test. *)
Definition original : Task.t :=
  Task.mk 1 "Original" (Some "Keep This") false 10.

Definition original_store : Store := mkStore [original] 2.

Definition new_title : Body.t :=
  Body.mk (Value "New Title") Omitted Omitted [].

Definition all_null : Body.t := Body.mk Null Null Null [].

Definition null_description : Body.t :=
  Body.mk (Value "X") Null Omitted [].

(** A body that tries to choose its own [id] and [created_at]. *)
Definition forged : Body.t :=
  Body.mk (Value "X") Omitted Omitted [("id", "77"); ("created_at", "0")].

(** ** Writes addressed to one task *)

(** The two requests that change the row of one id. *)
Inductive Write : Type :=
| Put (body : Body.t)
| Delete.

Definition write_request (task_id : Z) (w : Write) : Request :=
  match w with
  | Put body => PUT_task task_id body
  | Delete => DELETE_task task_id
  end.

(** A row with the id [i] becomes [repl]; any other row stays. *)
Definition step (i : Z) (repl : list Task.t) (r : Task.t) : list Task.t :=
  if has_id i r then repl else [r].

(** What a write puts in the place of the row it finds. *)
Definition replacement (i : Z) (w : Write) (l : list Task.t) : list Task.t :=
  match w with
  | Delete => []
  | Put body =>
      match find (has_id i) l with
      | Some t => [assign (TaskUpdate.validate body) t]
      | None => []
      end
  end.

Definition write_rows (i : Z) (w : Write) (l : list Task.t) : list Task.t :=
  flat_map (step i (replacement i w l)) l.

Definition write_response (i : Z) (w : Write) (l : list Task.t) : Response :=
  match find (has_id i) l with
  | None => task_not_found
  | Some t =>
      match w with
      | Put body => ok (task_json (assign (TaskUpdate.validate body) t))
      | Delete => ok (MessageJson "Task deleted successfully")
      end
  end.

(** The body that gives a field the value of [later] where [later]
    has one, and what [earlier] gives it otherwise. *)
Definition overlay_field {A : Type} (earlier later : field A) : field A :=
  match later with
  | Value v => Value v
  | Omitted | Null => earlier
  end.

Definition overlay (earlier later : Body.t) : Body.t :=
  Body.mk (overlay_field (Body.title earlier) (Body.title later))
          (overlay_field (Body.description earlier) (Body.description later))
          (overlay_field (Body.completed earlier) (Body.completed later))
          (Body.extra later).

(** One DELETE for each id of a list. *)
Definition deletes (now : datetime) (l : list Z) : list (datetime * Request) :=
  map (fun i => (now, DELETE_task i)) l.

(** Whether a row of the table has the id. *)
Definition present (task_id : Z) (db : Store) : bool :=
  existsb (Z.eqb task_id) (ids db).

Definition completed_true : Body.t := Body.mk Omitted Omitted (Value true) [].

Definition no_title : Body.t := Body.mk Omitted (Value "d") Omitted [].

(** Well-formedness of a table that is written out. *)
Ltac sample_wf :=
  unfold wf, ids; simpl; split; repeat (constructor; try lia).

(** * Properties *)

(** ** Worked requests

    The scenarios of the endpoint tests, run through [app]. *)

Example list_empty :
  app 0 GET_tasks empty_store = (ok (TaskListJson []), empty_store).
Proof. reflexivity. Qed.

Example list_two_titles :
  let db := serve [(10, POST_tasks (Body.mk (Value "Task 1") (Value "Description 1")
                                            (Value false) []));
                   (20, POST_tasks (Body.mk (Value "Task 2") (Value "Description 2")
                                            (Value false) []))] empty_store in
  fst (app 30 GET_tasks db)
  = ok (TaskListJson
          [TaskResponse.mk 1 "Task 1" (Some "Description 1") false 10;
           TaskResponse.mk 2 "Task 2" (Some "Description 2") false 20]).
Proof. reflexivity. Qed.

Example delete_middle_of_three :
  fst (app 50 GET_tasks (snd (app 40 (DELETE_task 2) three_tasks)))
  = ok (TaskListJson
          [TaskResponse.mk 1 "Task 1" (Some "") false 10;
           TaskResponse.mk 3 "Task 3" (Some "") false 30]).
Proof. reflexivity. Qed.

Example get_missing_task :
  app 40 (GET_task 9999) three_tasks = (task_not_found, three_tasks).
Proof. reflexivity. Qed.

Example put_completed :
  fst (app 40 (PUT_task 2 (Body.mk Omitted Omitted (Value true) [])) three_tasks)
  = ok (TaskJson (TaskResponse.mk 2 "Task 2" (Some "") true 20)).
Proof. reflexivity. Qed.

Example put_empty_title :
  fst (app 40 (PUT_task 2 (Body.mk (Value "") Omitted (Value false) [])) three_tasks)
  = ok (TaskJson (TaskResponse.mk 2 "" (Some "") false 20)).
Proof. reflexivity. Qed.

Example post_without_title :
  app 5 (POST_tasks (Body.mk Omitted (Value "d") Omitted [])) empty_store
  = (unprocessable, empty_store).
Proof. reflexivity. Qed.

Example post_null_completed :
  app 5 (POST_tasks (Body.mk (Value "X") Omitted Null [])) empty_store
  = (unprocessable, empty_store).
Proof. reflexivity. Qed.

Example workflow :
  let db1 := snd (app 10 (POST_tasks (Body.mk (Value "Workflow Task")
                                              (Value "Test workflow") Omitted []))
                      empty_store) in
  let db2 := snd (app 20 (PUT_task 1 (Body.mk Omitted Omitted (Value true) [])) db1) in
  let db3 := snd (app 30 (DELETE_task 1) db2) in
  fst (app 15 (GET_task 1) db1)
  = ok (TaskJson (TaskResponse.mk 1 "Workflow Task" (Some "Test workflow") false 10))
  /\ fst (app 25 (GET_task 1) db2)
     = ok (TaskJson (TaskResponse.mk 1 "Workflow Task" (Some "Test workflow") true 10))
  /\ fst (app 35 (GET_task 1) db3) = task_not_found
  /\ db3 = mkStore [] 2.
Proof. repeat split. Qed.

(** ** Lists of rows *)

Section Rows.

Implicit Types (l : list Task.t) (r t o : Task.t) (i : Z).

Lemma has_id_true i r : has_id i r = true <-> Task.id r = i.
Proof. unfold has_id. apply Z.eqb_eq. Qed.

Lemma has_id_false i r : has_id i r = false <-> Task.id r <> i.
Proof. unfold has_id. apply Z.eqb_neq. Qed.

Lemma has_id_self r : has_id (Task.id r) r = true.
Proof. now apply has_id_true. Qed.

Lemma others_absent i l : others i l <-> ~ In i (map Task.id l).
Proof.
  unfold others. rewrite Forall_forall, in_map_iff. split.
  - intros H (r & Hid & Hin). apply H in Hin.
    apply has_id_false in Hin. contradiction.
  - intros H r Hin. apply has_id_false. intros Hid. apply H. now exists r.
Qed.

Lemma find_others i l : others i l -> find (has_id i) l = None.
Proof.
  induction 1 as [|r l Hr _ IH]; simpl; [reflexivity|].
  now rewrite Hr.
Qed.

Lemma find_none_others i l : find (has_id i) l = None -> others i l.
Proof.
  intros H. apply Forall_forall. intros r Hin.
  apply (find_none _ _ H r Hin).
Qed.

Lemma find_some_id i l t : find (has_id i) l = Some t -> Task.id t = i.
Proof. intros H. apply find_some in H. now apply has_id_true. Qed.

Lemma find_middle i l1 t l2 :
  others i l1 -> Task.id t = i -> find (has_id i) (l1 ++ t :: l2) = Some t.
Proof.
  intros H Ht. induction H as [|r l Hr _ IH]; simpl.
  - apply has_id_true in Ht. now rewrite Ht.
  - now rewrite Hr.
Qed.

Lemma replace_others i o l :
  others i l -> map (fun r => if has_id i r then o else r) l = l.
Proof.
  induction 1 as [|r l Hr _ IH]; simpl; [reflexivity|].
  now rewrite Hr, IH.
Qed.

Lemma replace_middle i o l1 t l2 :
  others i l1 -> others i l2 -> Task.id t = i ->
  map (fun r => if has_id i r then o else r) (l1 ++ t :: l2) = l1 ++ o :: l2.
Proof.
  intros H1 H2 Ht. rewrite map_app. simpl.
  rewrite (replace_others i o l1 H1), (replace_others i o l2 H2).
  apply has_id_true in Ht. now rewrite Ht.
Qed.

Lemma replace_ids i o l :
  Task.id o = i ->
  map Task.id (map (fun r => if has_id i r then o else r) l)
  = map Task.id l.
Proof.
  intros Ho. rewrite map_map. apply map_ext. intros r.
  destruct (has_id i r) eqn:E; [|reflexivity].
  apply has_id_true in E. congruence.
Qed.

End Rows.

Section Keys.

Implicit Types (l : list Task.t) (r t o : Task.t) (i : Z) (k : list Z).

Lemma filter_others i l :
  others i l -> filter (fun r => negb (has_id i r)) l = l.
Proof.
  induction 1 as [|r l Hr _ IH]; simpl; [reflexivity|].
  now rewrite Hr, IH.
Qed.

Lemma filter_middle i l1 t l2 :
  others i l1 -> others i l2 -> Task.id t = i ->
  filter (fun r => negb (has_id i r)) (l1 ++ t :: l2) = l1 ++ l2.
Proof.
  intros H1 H2 Ht. rewrite filter_app. simpl.
  apply has_id_true in Ht. rewrite Ht. simpl.
  now rewrite (filter_others i l1 H1), (filter_others i l2 H2).
Qed.

Lemma filter_leaves_others i l :
  others i (filter (fun r => negb (has_id i r)) l).
Proof.
  apply Forall_forall. intros r Hin. apply filter_In in Hin.
  destruct Hin as [_ Hin]. now apply negb_true_iff in Hin.
Qed.

Lemma ascending_nodup k : StronglySorted Z.lt k -> NoDup k.
Proof.
  induction 1 as [|a k _ IH Ha]; constructor; [|exact IH].
  intros Hin. rewrite Forall_forall in Ha. apply Ha in Hin. lia.
Qed.

Lemma ascending_snoc k a :
  StronglySorted Z.lt k -> Forall (fun i => i < a) k ->
  StronglySorted Z.lt (k ++ [a]).
Proof.
  induction 1 as [|b k _ IH Hb]; intros Hlt; simpl.
  - repeat constructor.
  - inversion Hlt; subst. constructor; [now apply IH|].
    apply Forall_app. split; [exact Hb|]. now repeat constructor.
Qed.

Lemma ascending_filter (p : Task.t -> bool) l :
  StronglySorted Z.lt (map Task.id l) ->
  StronglySorted Z.lt (map Task.id (filter p l)).
Proof.
  induction l as [|r l IH]; simpl; intros H; [constructor|].
  inversion H as [|? ? Hs Hr]; subst.
  destruct (p r); simpl; [|now apply IH].
  constructor; [now apply IH|].
  rewrite Forall_forall in *. intros i Hin. apply Hr.
  rewrite in_map_iff in *. destruct Hin as (x & Hx & Hin).
  exists x. split; [exact Hx|]. now apply filter_In in Hin.
Qed.

(** With unique ids a row splits the table into rows of other ids. *)
Lemma unique_split l t :
  NoDup (map Task.id l) -> In t l ->
  exists l1 l2,
    l = l1 ++ t :: l2 /\ others (Task.id t) l1 /\ others (Task.id t) l2.
Proof.
  intros Hnd Hin. destruct (in_split _ _ Hin) as (l1 & l2 & ->).
  exists l1, l2. split; [reflexivity|].
  rewrite map_app in Hnd. simpl in Hnd. apply NoDup_remove_2 in Hnd.
  rewrite in_app_iff in Hnd.
  split; apply others_absent; intros H; apply Hnd; [now left | now right].
Qed.

End Keys.

(** ** The invariant *)

Section Invariant.

Implicit Types (db : Store) (t : Task.t).

Lemma wf_empty : wf empty_store.
Proof. split; constructor. Qed.

Lemma wf_nodup db : wf db -> NoDup (ids db).
Proof. intros [H _]. now apply ascending_nodup. Qed.

Lemma wf_next_id_fresh db : wf db -> others (next_id db) (rows db).
Proof.
  intros [_ H]. apply others_absent. intros Hin.
  unfold ids in H. rewrite Forall_forall in H. apply H in Hin. lia.
Qed.

Lemma wf_split db t :
  wf db -> In t (rows db) ->
  exists l1 l2,
    rows db = l1 ++ t :: l2 /\ others (Task.id t) l1 /\ others (Task.id t) l2.
Proof. intros H. apply unique_split. now apply wf_nodup. Qed.

(** A row of the table is the one its id finds. *)
Lemma wf_find db t :
  wf db -> In t (rows db) -> find (has_id (Task.id t)) (rows db) = Some t.
Proof.
  intros H Hin. destruct (wf_split db t H Hin) as (l1 & l2 & -> & H1 & _).
  now apply find_middle.
Qed.

Lemma absent_find db i :
  ~ In i (ids db) <-> find (has_id i) (rows db) = None.
Proof.
  unfold ids. rewrite <- others_absent. split.
  - apply find_others.
  - apply find_none_others.
Qed.

Lemma wf_insert db t :
  wf db -> Task.id t = next_id db ->
  wf (mkStore (rows db ++ [t]) (next_id db + 1)).
Proof.
  intros [Hs Hb] Ht. unfold wf, ids in *. simpl.
  rewrite map_app. simpl. rewrite Ht. split.
  - now apply ascending_snoc.
  - apply Forall_app. split.
    + eapply Forall_impl; [|exact Hb]. simpl. intros; lia.
    + repeat constructor. lia.
Qed.

Lemma wf_replace db i o :
  wf db -> Task.id o = i ->
  wf (mkStore (map (fun r => if has_id i r then o else r) (rows db))
              (next_id db)).
Proof.
  intros H Ho. unfold wf, ids in *. simpl. now rewrite (replace_ids i o _ Ho).
Qed.

Lemma wf_filter db (p : Task.t -> bool) :
  wf db -> wf (mkStore (filter p (rows db)) (next_id db)).
Proof.
  intros [Hs Hb]. unfold wf, ids in *. simpl. split.
  - now apply ascending_filter.
  - rewrite Forall_forall in *. intros i Hin. apply Hb.
    rewrite in_map_iff in *. destruct Hin as (x & Hx & Hin).
    exists x. split; [exact Hx|]. now apply filter_In in Hin.
Qed.

End Invariant.

(** ** What each handler computes *)

Section Handlers.

Implicit Types (db : Store) (t : Task.t) (i : Z).

Lemma assign_id task t : Task.id (assign task t) = Task.id t.
Proof.
  unfold assign.
  destruct (TaskUpdate.title task), (TaskUpdate.description task),
    (TaskUpdate.completed task); reflexivity.
Qed.

Lemma assign_created_at task t :
  Task.created_at (assign task t) = Task.created_at t.
Proof.
  unfold assign.
  destruct (TaskUpdate.title task), (TaskUpdate.description task),
    (TaskUpdate.completed task); reflexivity.
Qed.

Lemma assign_nothing t : assign (TaskUpdate.mk None None None) t = t.
Proof. reflexivity. Qed.

Lemma find_replaced i o (l : list Task.t) t :
  find (has_id i) l = Some t -> Task.id o = i ->
  find (has_id i) (map (fun r => if has_id i r then o else r) l) = Some o.
Proof.
  intros H Ho. apply has_id_true in Ho.
  induction l as [|r l IH]; simpl in *; [discriminate|].
  destruct (has_id i r) eqn:E.
  - now rewrite Ho.
  - rewrite E. now apply IH.
Qed.

Lemma get_task_found i db t :
  find (has_id i) (rows db) = Some t -> get_task i db = (Return t, db).
Proof.
  intros H. unfold get_task, bind, query_first. now rewrite H.
Qed.

Lemma get_task_missing i db :
  find (has_id i) (rows db) = None -> get_task i db = (Raise not_found, db).
Proof.
  intros H. unfold get_task, bind, query_first. now rewrite H.
Qed.

Lemma update_task_found i task db t :
  find (has_id i) (rows db) = Some t ->
  update_task i task db =
  (Return (assign task t),
   mkStore (map (fun r => if has_id i r then assign task t else r) (rows db))
           (next_id db)).
Proof.
  intros H.
  assert (Hi : Task.id (assign task t) = i).
  { rewrite assign_id. now apply find_some_id in H. }
  transitivity
    ((commit (assign task t) ;;
      db_task <- refresh (Task.id (assign task t)) ;;
      ret db_task) db).
  - unfold update_task, bind at 1, query_first. now rewrite H.
  - unfold bind, commit, refresh, ret. simpl. rewrite Hi.
    now rewrite (find_replaced i (assign task t) (rows db) t H Hi).
Qed.

Lemma update_task_missing i task db :
  find (has_id i) (rows db) = None ->
  update_task i task db = (Raise not_found, db).
Proof.
  intros H. unfold update_task, bind, query_first. now rewrite H.
Qed.

Lemma delete_task_found i db t :
  find (has_id i) (rows db) = Some t ->
  delete_task i db =
  (Return "Task deleted successfully",
   mkStore (filter (fun r => negb (has_id i r)) (rows db)) (next_id db)).
Proof.
  intros H. unfold delete_task, bind, query_first, delete_commit, ret.
  rewrite H. now rewrite (find_some_id i (rows db) t H).
Qed.

Lemma delete_task_missing i db :
  find (has_id i) (rows db) = None ->
  delete_task i db = (Raise not_found, db).
Proof.
  intros H. unfold delete_task, bind, query_first. now rewrite H.
Qed.

(** On a well-formed table the insert is read back as written. *)
Lemma create_task_inserts now task db :
  wf db ->
  create_task now task db =
  (Return (inserted now task db),
   mkStore (rows db ++ [inserted now task db]) (next_id db + 1)).
Proof.
  intros H. unfold create_task, bind, add_commit, refresh, ret. simpl.
  fold (inserted now task db).
  now rewrite (find_middle (next_id db) (rows db) (inserted now task db) []
                 (wf_next_id_fresh db H) eq_refl).
Qed.

End Handlers.

(** ** What each route answers *)

Section Routes.

Variable now : datetime.
Implicit Types (db : Store) (t : Task.t) (i : Z).

Lemma app_GET_tasks db :
  app now GET_tasks db =
  (ok (TaskListJson (map TaskResponse.from_attributes (rows db))), db).
Proof. reflexivity. Qed.

Lemma app_GET_task_found i db t :
  find (has_id i) (rows db) = Some t ->
  app now (GET_task i) db = (ok (task_json t), db).
Proof.
  intros H. simpl. unfold respond. now rewrite (get_task_found i db t H).
Qed.

Lemma app_GET_task_missing i db :
  find (has_id i) (rows db) = None ->
  app now (GET_task i) db = (task_not_found, db).
Proof.
  intros H. simpl. unfold respond. now rewrite (get_task_missing i db H).
Qed.

Lemma app_PUT_task_found i body db t :
  find (has_id i) (rows db) = Some t ->
  app now (PUT_task i body) db =
  (ok (task_json (assign (TaskUpdate.validate body) t)),
   mkStore (map (fun r => if has_id i r
                          then assign (TaskUpdate.validate body) t else r)
                (rows db))
           (next_id db)).
Proof.
  intros H. simpl. unfold respond.
  now rewrite (update_task_found i _ db t H).
Qed.

Lemma app_PUT_task_missing i body db :
  find (has_id i) (rows db) = None ->
  app now (PUT_task i body) db = (task_not_found, db).
Proof.
  intros H. simpl. unfold respond.
  now rewrite (update_task_missing i _ db H).
Qed.

Lemma app_DELETE_task_found i db t :
  find (has_id i) (rows db) = Some t ->
  app now (DELETE_task i) db =
  (ok (MessageJson "Task deleted successfully"),
   mkStore (filter (fun r => negb (has_id i r)) (rows db)) (next_id db)).
Proof.
  intros H. simpl. unfold respond. now rewrite (delete_task_found i db t H).
Qed.

Lemma app_DELETE_task_missing i db :
  find (has_id i) (rows db) = None ->
  app now (DELETE_task i) db = (task_not_found, db).
Proof.
  intros H. simpl. unfold respond. now rewrite (delete_task_missing i db H).
Qed.

Lemma app_POST_tasks_valid body task db :
  wf db -> TaskCreate.validate body = Some task ->
  app now (POST_tasks body) db =
  (ok (task_json (inserted now task db)),
   mkStore (rows db ++ [inserted now task db]) (next_id db + 1)).
Proof.
  intros H Hv. simpl. rewrite Hv. unfold respond.
  now rewrite (create_task_inserts now task db H).
Qed.

Lemma app_POST_tasks_invalid body db :
  TaskCreate.validate body = None ->
  app now (POST_tasks body) db = (unprocessable, db).
Proof. intros Hv. simpl. now rewrite Hv. Qed.

(** Every request keeps the table well formed. *)
Lemma app_wf rq db : wf db -> wf (snd (app now rq db)).
Proof.
  intros H. destruct rq as [| |body|i|i body|i].
  - exact H.
  - exact H.
  - destruct (TaskCreate.validate body) as [task|] eqn:Hv.
    + rewrite (app_POST_tasks_valid body task db H Hv). simpl.
      now apply wf_insert.
    + now rewrite (app_POST_tasks_invalid body db Hv).
  - destruct (find (has_id i) (rows db)) as [t|] eqn:Hf.
    + now rewrite (app_GET_task_found i db t Hf).
    + now rewrite (app_GET_task_missing i db Hf).
  - destruct (find (has_id i) (rows db)) as [t|] eqn:Hf.
    + rewrite (app_PUT_task_found i body db t Hf). simpl.
      assert (Hi : Task.id (assign (TaskUpdate.validate body) t) = i).
      { rewrite assign_id. now apply find_some_id in Hf. }
      now apply wf_replace.
    + now rewrite (app_PUT_task_missing i body db Hf).
  - destruct (find (has_id i) (rows db)) as [t|] eqn:Hf.
    + rewrite (app_DELETE_task_found i db t Hf). simpl.
      now apply wf_filter.
    + now rewrite (app_DELETE_task_missing i db Hf).
Qed.

End Routes.

Lemma serve_wf rqs db : wf db -> wf (serve rqs db).
Proof.
  revert db. induction rqs as [|[now rq] rqs IH]; intros db H; simpl.
  - exact H.
  - apply IH. now apply app_wf.
Qed.

Lemma reachable_wf db : reachable db -> wf db.
Proof.
  induction 1 as [|now rq db _ IH].
  - exact wf_empty.
  - now apply app_wf.
Qed.

Lemma reachable_serve rqs db : reachable db -> reachable (serve rqs db).
Proof.
  revert db. induction rqs as [|[now rq] rqs IH]; intros db H; simpl.
  - exact H.
  - apply IH. now constructor.
Qed.

Lemma validate_title body task :
  TaskCreate.validate body = Some task ->
  Body.title body = Value (TaskCreate.title task).
Proof.
  unfold TaskCreate.validate.
  destruct (Body.title body); try discriminate.
  destruct (Body.completed body); try discriminate; now intros [= <-].
Qed.

(** After [n] accepted creations the table has [n] more rows, at its
    end and in the order of the creations. *)
Lemma serve_posts l :
  forall db,
    wf db ->
    Forall (fun p => TaskCreate.validate (snd p) <> None) l ->
    exists created,
      rows (serve (posts l) db) = rows db ++ created
      /\ map Task.created_at created = map fst l
      /\ map (fun r => Value (Task.title r)) created
         = map (fun p => Body.title (snd p)) l.
Proof.
  induction l as [|[now body] l IH]; intros db Hwf Hok.
  - exists []. simpl. now rewrite app_nil_r.
  - inversion Hok as [|? ? Hv Hrest]; subst. cbn [snd] in Hv.
    destruct (TaskCreate.validate body) as [task|] eqn:E; [|contradiction].
    pose proof (app_wf now (POST_tasks body) db Hwf) as Hwf'.
    destruct (IH _ Hwf' Hrest) as (created & Hrows & Hat & Htitles).
    exists (inserted now task db :: created).
    cbn [posts map serve fst snd]. fold (posts l). rewrite Hrows.
    rewrite (app_POST_tasks_valid now body task db Hwf E).
    cbn [snd rows map]. rewrite <- app_assoc, Hat, Htitles.
    now rewrite (validate_title body task E).
Qed.

(** ** The endpoint contract *)

Lemma identity_filter i (l : list Task.t) :
  map identity (filter (fun r => negb (has_id i r)) l)
  = filter (fun p => negb (fst p =? i)) (map identity l).
Proof.
  induction l as [|r l IH]; simpl; [reflexivity|].
  unfold has_id at 1. destruct (Task.id r =? i); simpl; now rewrite IH.
Qed.

Lemma response_ids (l : list Task.t) :
  map TaskResponse.id (map TaskResponse.from_attributes l) = map Task.id l.
Proof. rewrite map_map. now apply map_ext. Qed.

Lemma assign_fields body t :
  let t' := assign (TaskUpdate.validate body) t in
  Task.title t' =
    match Body.title body with Value v => v | _ => Task.title t end
  /\ Task.description t' =
    match Body.description body with
    | Value v => Some v
    | _ => Task.description t
    end
  /\ Task.completed t' =
    match Body.completed body with Value v => v | _ => Task.completed t end.
Proof.
  unfold assign, TaskUpdate.validate. simpl.
  destruct (Body.title body), (Body.description body), (Body.completed body);
    simpl; repeat split; reflexivity.
Qed.

Lemma assign_unset body t :
  unset (Body.title body) -> unset (Body.description body) ->
  unset (Body.completed body) ->
  assign (TaskUpdate.validate body) t = t.
Proof.
  unfold assign, TaskUpdate.validate. simpl.
  destruct (Body.title body), (Body.description body), (Body.completed body);
    simpl; intros; (contradiction || reflexivity).
Qed.

Lemma store_eta db : mkStore (rows db) (next_id db) = db.
Proof. now destruct db. Qed.

(** C1.  For every task [t] of the table and every body of
    PUT /tasks/{id}, the answer is 200 with the task in which each
    field the body gives a value carries that value, and every other
    field keeps the value it had; [id] and [created_at] are kept as
    well.  In the table the updated row stands where [t] stood, between
    the same rows. *)
Theorem update_task_changes_supplied_fields now db t body :
  wf db -> In t (rows db) ->
  exists t' l1 l2,
    app now (PUT_task (Task.id t) body) db
    = (ok (task_json t'), mkStore (l1 ++ t' :: l2) (next_id db))
    /\ rows db = l1 ++ t :: l2
    /\ Task.title t' =
         match Body.title body with Value v => v | _ => Task.title t end
    /\ Task.description t' =
         match Body.description body with
         | Value v => Some v
         | _ => Task.description t
         end
    /\ Task.completed t' =
         match Body.completed body with
         | Value v => v
         | _ => Task.completed t
         end
    /\ Task.id t' = Task.id t
    /\ Task.created_at t' = Task.created_at t.
Proof.
  intros Hwf Hin.
  destruct (wf_split db t Hwf Hin) as (l1 & l2 & Hrows & H1 & H2).
  exists (assign (TaskUpdate.validate body) t), l1, l2.
  rewrite (app_PUT_task_found now (Task.id t) body db t (wf_find db t Hwf Hin)).
  rewrite Hrows at 1.
  rewrite (replace_middle (Task.id t) _ l1 t l2 H1 H2 eq_refl).
  destruct (assign_fields body t) as (Ht & Hd & Hc).
  repeat split; try assumption.
  - apply assign_id.
  - apply assign_created_at.
Qed.

(** The partial update of the endpoint tests: only the title changes. *)
Lemma partial_update_keeps_description :
  wf original_store /\ In original (rows original_store) /\
  fst (app 20 (PUT_task 1 new_title) original_store)
  = ok (TaskJson (TaskResponse.mk 1 "New Title" (Some "Keep This") false 10)).
Proof.
  assert (Hwf : wf original_store) by sample_wf.
  assert (Hin : In original (rows original_store)) by (simpl; auto).
  split; [exact Hwf|]. split; [exact Hin|].
  destruct (update_task_changes_supplied_fields 20 original_store original
              new_title Hwf Hin)
    as (t' & l1 & l2 & Happ & _ & Ht & Hd & Hc & Hi & Hcr).
  change (Task.id original) with 1 in Happ. rewrite Happ. simpl.
  destruct t'; simpl in *; subst; reflexivity.
Defined.

(** C2.  GET /tasks answers 200 with every record of the table, one
    entry for each row and in the order of the rows, and leaves the
    table as it is.  The rows are in insertion order: a task created
    next is listed after all of them; and their ids ascend.  On the
    empty table the answer is 200 with the empty array. *)
Theorem get_tasks_lists_every_record now db :
  wf db ->
  app now GET_tasks db
  = (ok (TaskListJson (map TaskResponse.from_attributes (rows db))), db)
  /\ StronglySorted Z.lt
       (map TaskResponse.id (map TaskResponse.from_attributes (rows db)))
  /\ (forall now' body task,
        TaskCreate.validate body = Some task ->
        exists t,
          fst (app now' (POST_tasks body) db) = ok (TaskJson t)
          /\ fst (app now GET_tasks (snd (app now' (POST_tasks body) db)))
             = ok (TaskListJson
                     (map TaskResponse.from_attributes (rows db) ++ [t])))
  /\ app now GET_tasks empty_store = (ok (TaskListJson []), empty_store).
Proof.
  intros Hwf. split; [apply app_GET_tasks|].
  split; [rewrite response_ids; apply Hwf|].
  split; [|reflexivity].
  intros now' body task Hv.
  exists (TaskResponse.from_attributes (inserted now' task db)).
  rewrite (app_POST_tasks_valid now' body task db Hwf Hv). simpl.
  split; [reflexivity|].
  unfold respond, get_tasks, bind, query_all, ret. simpl.
  now rewrite map_app.
Qed.

(** The listing of three tasks, in the order they were created. *)
Lemma list_three_in_creation_order :
  wf three_tasks /\
  fst (app 40 GET_tasks three_tasks)
  = ok (TaskListJson
          [TaskResponse.mk 1 "Task 1" (Some "") false 10;
           TaskResponse.mk 2 "Task 2" (Some "") false 20;
           TaskResponse.mk 3 "Task 3" (Some "") false 30]).
Proof.
  assert (Hwf : wf three_tasks) by sample_wf.
  split; [exact Hwf|].
  destruct (get_tasks_lists_every_record 40 three_tasks Hwf) as (Happ & _).
  rewrite Happ. reflexivity.
Defined.

(** C3.  A POST /tasks body with a title and neither [description] nor
    [completed] is answered 200 with the created task: [description]
    is the empty string, [completed] is false, [id] is the identity
    value the store assigned and [created_at] the store's time of the
    insert.  The row written to the table holds the same values. *)
Theorem create_task_title_only_defaults now db title extra :
  wf db ->
  app now (POST_tasks (Body.mk (Value title) Omitted Omitted extra)) db
  = (ok (TaskJson (TaskResponse.mk (next_id db) title (Some "") false now)),
     mkStore (rows db ++ [Task.mk (next_id db) title (Some "") false now])
             (next_id db + 1)).
Proof.
  intros Hwf.
  now rewrite (app_POST_tasks_valid now
                 (Body.mk (Value title) Omitted Omitted extra)
                 (TaskCreate.mk title (Some "") false) db Hwf eq_refl).
Qed.

(** The first task of an empty table, created from its title alone. *)
Lemma create_simple_task :
  wf empty_store /\
  fst (app 10 (POST_tasks (only_title "Simple Task")) empty_store)
  = ok (TaskJson (TaskResponse.mk 1 "Simple Task" (Some "") false 10)).
Proof.
  split; [exact wf_empty|].
  unfold only_title.
  now rewrite (create_task_title_only_defaults 10 empty_store "Simple Task" []
                 wf_empty).
Defined.

(** C4.  For an id that no row of the table has, GET, PUT (with any
    body) and DELETE on /tasks/{id} each answer 404 with the body
    [{"detail": "Task not found"}]. *)
Theorem absent_id_is_not_found now db task_id body :
  ~ In task_id (ids db) ->
  fst (app now (GET_task task_id) db)
  = mkResponse 404 (DetailJson "Task not found")
  /\ fst (app now (PUT_task task_id body) db)
     = mkResponse 404 (DetailJson "Task not found")
  /\ fst (app now (DELETE_task task_id) db)
     = mkResponse 404 (DetailJson "Task not found").
Proof.
  intros H. apply absent_find in H.
  rewrite (app_GET_task_missing now task_id db H).
  rewrite (app_PUT_task_missing now task_id body db H).
  rewrite (app_DELETE_task_missing now task_id db H).
  repeat split.
Qed.

(** Task 9999 of a table of three. *)
Lemma task_9999_is_not_found :
  ~ In 9999 (ids three_tasks) /\
  fst (app 40 (PUT_task 9999 new_title) three_tasks)
  = mkResponse 404 (DetailJson "Task not found").
Proof.
  assert (H : ~ In 9999 (ids three_tasks)).
  { simpl. intros [H|[H|[H|[]]]]; discriminate H. }
  split; [exact H|].
  exact (proj1 (proj2 (absent_id_is_not_found 40 three_tasks 9999 new_title H))).
Defined.

(** C5.  DELETE /tasks/{id} on a task [t] of the table answers 200 and
    takes exactly the row of [t] out of the table, the rows before and
    after it staying as they are.  After that no entry of GET /tasks
    has the id, GET /tasks/{id} answers 404, and a second DELETE
    answers 404 (and changes nothing). *)
Theorem delete_task_removes_the_record now now' db t :
  wf db -> In t (rows db) ->
  let db' := snd (app now (DELETE_task (Task.id t)) db) in
  fst (app now (DELETE_task (Task.id t)) db)
  = ok (MessageJson "Task deleted successfully")
  /\ (exists l1 l2, rows db = l1 ++ t :: l2 /\ rows db' = l1 ++ l2)
  /\ (exists l,
        fst (app now' GET_tasks db') = ok (TaskListJson l)
        /\ ~ In (Task.id t) (map TaskResponse.id l))
  /\ fst (app now' (GET_task (Task.id t)) db') = task_not_found
  /\ app now' (DELETE_task (Task.id t)) db' = (task_not_found, db').
Proof.
  intros Hwf Hin db'. subst db'.
  destruct (wf_split db t Hwf Hin) as (l1 & l2 & Hrows & H1 & H2).
  rewrite (app_DELETE_task_found now (Task.id t) db t (wf_find db t Hwf Hin)).
  cbn [fst snd].
  assert (Hgone : others (Task.id t)
                    (filter (fun r => negb (has_id (Task.id t) r)) (rows db)))
    by apply filter_leaves_others.
  split; [reflexivity|]. split.
  { exists l1, l2. split; [exact Hrows|].
    cbn [rows]. rewrite Hrows. now apply filter_middle. }
  split.
  { eexists. rewrite app_GET_tasks. cbn [fst rows]. split; [reflexivity|].
    rewrite response_ids. now apply others_absent. }
  split.
  - rewrite app_GET_task_missing; [reflexivity|]. now apply find_others.
  - rewrite app_DELETE_task_missing; [reflexivity|]. now apply find_others.
Qed.

(** Deleting the middle one of three tasks, twice. *)
Lemma delete_task_2_twice :
  let t := Task.mk 2 "Task 2" (Some "") false 20 in
  let db' := snd (app 40 (DELETE_task 2) three_tasks) in
  wf three_tasks /\ In t (rows three_tasks) /\
  status_code (fst (app 40 (DELETE_task 2) three_tasks)) = 200 /\
  status_code (fst (app 50 (DELETE_task 2) db')) = 404.
Proof.
  intros t db'.
  assert (Hwf : wf three_tasks) by sample_wf.
  assert (Hin : In t (rows three_tasks)) by (simpl; auto).
  split; [exact Hwf|]. split; [exact Hin|].
  destruct (delete_task_removes_the_record 40 50 three_tasks t Hwf Hin)
    as (H200 & _ & _ & _ & H404).
  change (Task.id t) with 2 in H200, H404.
  subst db'. rewrite H200, H404. split; reflexivity.
Defined.

(** C6.  Every request keeps the ids of the table unique, and keeps
    the [id] and [created_at] of every record that stays in the table:
    the list of (id, created_at) pairs is the one before the request,
    except that a DELETE takes the pairs of its id out and an accepted
    POST appends one pair, made of the store's next identity value and
    the store's time of the insert.  No body, of POST or of PUT, has a
    part in any pair. *)
Theorem requests_preserve_identities now rq db :
  wf db ->
  let db' := snd (app now rq db) in
  wf db'
  /\ NoDup (ids db')
  /\ identities db' =
       match rq with
       | POST_tasks body =>
           match TaskCreate.validate body with
           | Some _ => identities db ++ [(next_id db, now)]
           | None => identities db
           end
       | DELETE_task task_id =>
           filter (fun p => negb (fst p =? task_id)) (identities db)
       | GET_root | GET_tasks | GET_task _ | PUT_task _ _ => identities db
       end.
Proof.
  intros Hwf db'.
  assert (Hwf' : wf db') by (subst db'; now apply app_wf).
  split; [exact Hwf'|]. split; [now apply wf_nodup|]. subst db'.
  destruct rq as [| |body|i|i body|i].
  - reflexivity.
  - reflexivity.
  - destruct (TaskCreate.validate body) as [task|] eqn:Hv.
    + rewrite (app_POST_tasks_valid now body task db Hwf Hv).
      unfold identities. cbn [snd rows]. now rewrite map_app.
    + now rewrite (app_POST_tasks_invalid now body db Hv).
  - destruct (find (has_id i) (rows db)) as [t|] eqn:Hf.
    + now rewrite (app_GET_task_found now i db t Hf).
    + now rewrite (app_GET_task_missing now i db Hf).
  - destruct (find (has_id i) (rows db)) as [t|] eqn:Hf.
    + rewrite (app_PUT_task_found now i body db t Hf).
      unfold identities. cbn [snd rows].
      pose proof (find_some_id i (rows db) t Hf) as Hi.
      apply find_some in Hf. destruct Hf as [Hin _].
      destruct (wf_split db t Hwf Hin) as (l1 & l2 & Hrows & H1 & H2).
      rewrite Hi in H1, H2. rewrite Hrows.
      rewrite (replace_middle i _ l1 t l2 H1 H2 Hi).
      rewrite !map_app. simpl. unfold identity at 2 4.
      now rewrite assign_id, assign_created_at.
    + now rewrite (app_PUT_task_missing now i body db Hf).
  - destruct (find (has_id i) (rows db)) as [t|] eqn:Hf.
    + rewrite (app_DELETE_task_found now i db t Hf).
      unfold identities. cbn [snd rows]. apply identity_filter.
    + rewrite (app_DELETE_task_missing now i db Hf). cbn [snd].
      unfold identities. rewrite <- identity_filter.
      now rewrite (filter_others i (rows db) (find_none_others i (rows db) Hf)).
Qed.

(** A body that names an [id] and a [created_at] of its own gets the
    store's, and a PUT moves neither. *)
Lemma forged_identity_is_ignored :
  wf three_tasks /\
  identities (snd (app 40 (POST_tasks forged) three_tasks))
  = [(1, 10); (2, 20); (3, 30); (4, 40)] /\
  identities (snd (app 40 (PUT_task 2 forged) three_tasks))
  = [(1, 10); (2, 20); (3, 30)].
Proof.
  assert (Hwf : wf three_tasks) by sample_wf.
  split; [exact Hwf|]. split.
  - destruct (requests_preserve_identities 40 (POST_tasks forged) three_tasks Hwf)
      as (_ & _ & H).
    rewrite H. reflexivity.
  - destruct (requests_preserve_identities 40 (PUT_task 2 forged) three_tasks Hwf)
      as (_ & _ & H).
    rewrite H. reflexivity.
Defined.

(** C7.  A POST /tasks that the framework accepts answers 200 with the
    created task, and a GET /tasks/{id} with the id of that answer,
    made right after it, answers 200 with the same payload. *)
Theorem get_task_after_create_task now now' body task db :
  wf db -> TaskCreate.validate body = Some task ->
  exists t,
    fst (app now (POST_tasks body) db) = ok (TaskJson t)
    /\ fst (app now' (GET_task (TaskResponse.id t))
              (snd (app now (POST_tasks body) db)))
       = ok (TaskJson t).
Proof.
  intros Hwf Hv.
  exists (TaskResponse.from_attributes (inserted now task db)).
  rewrite (app_POST_tasks_valid now body task db Hwf Hv). cbn [fst snd].
  split; [reflexivity|].
  rewrite (app_GET_task_found now' _ _ (inserted now task db));
    [reflexivity|].
  cbn [rows]. apply find_middle; [|reflexivity].
  now apply wf_next_id_fresh.
Qed.

(** Reading back the fourth task. *)
Lemma get_fourth_task_after_create :
  wf three_tasks /\
  fst (app 50 (GET_task 4) (snd (app 40 (POST_tasks null_description) three_tasks)))
  = fst (app 40 (POST_tasks null_description) three_tasks).
Proof.
  assert (Hwf : wf three_tasks) by sample_wf.
  split; [exact Hwf|].
  destruct (get_task_after_create_task 40 50 null_description
              (TaskCreate.mk "X" None false) three_tasks Hwf eq_refl)
    as (t & Hpost & Hget).
  rewrite Hpost.
  assert (Hid : TaskResponse.id t = 4).
  { apply (f_equal content) in Hpost. simpl in Hpost.
    injection Hpost as <-. reflexivity. }
  rewrite Hid in Hget. exact Hget.
Defined.

(** C8.  For an id that no row of the table has, PUT /tasks/{id} (with
    any body) and DELETE /tasks/{id} answer 404 and leave the table
    exactly as it was. *)
Theorem not_found_leaves_store_unchanged now db task_id body :
  ~ In task_id (ids db) ->
  app now (PUT_task task_id body) db
  = (mkResponse 404 (DetailJson "Task not found"), db)
  /\ app now (DELETE_task task_id) db
     = (mkResponse 404 (DetailJson "Task not found"), db).
Proof.
  intros H. apply absent_find in H. split.
  - exact (app_PUT_task_missing now task_id body db H).
  - exact (app_DELETE_task_missing now task_id db H).
Qed.

(** A failed DELETE on a table of three. *)
Lemma delete_9999_changes_nothing :
  ~ In 9999 (ids three_tasks) /\
  snd (app 40 (DELETE_task 9999) three_tasks) = three_tasks.
Proof.
  assert (H : ~ In 9999 (ids three_tasks)).
  { simpl. intros [H|[H|[H|[]]]]; discriminate H. }
  split; [exact H|].
  now rewrite (proj2 (not_found_leaves_store_unchanged 40 three_tasks 9999
                        all_null H)).
Defined.

(** C9.  On a task [t] of the table, a PUT /tasks/{id} whose body
    gives no field a value (each of [title], [description],
    [completed] is null or missing, the empty body included) answers
    200 with [t] as it was and leaves the table as it was.  And
    whatever the body, a task whose [description] is not null has a
    [description] that is not null after the PUT, in the answer and in
    the table. *)
Theorem update_task_with_nulls_is_identity now db t body :
  wf db -> In t (rows db) ->
  (unset (Body.title body) -> unset (Body.description body) ->
   unset (Body.completed body) ->
   app now (PUT_task (Task.id t) body) db = (ok (task_json t), db))
  /\ (Task.description t <> None ->
      exists t',
        fst (app now (PUT_task (Task.id t) body) db) = ok (task_json t')
        /\ find (has_id (Task.id t))
             (rows (snd (app now (PUT_task (Task.id t) body) db))) = Some t'
        /\ Task.description t' <> None).
Proof.
  intros Hwf Hin.
  pose proof (wf_find db t Hwf Hin) as Hf.
  rewrite (app_PUT_task_found now (Task.id t) body db t Hf).
  split.
  - intros Ht Hd Hc. rewrite (assign_unset body t Ht Hd Hc).
    destruct (wf_split db t Hwf Hin) as (l1 & l2 & Hrows & H1 & H2).
    rewrite Hrows at 1.
    rewrite (replace_middle (Task.id t) t l1 t l2 H1 H2 eq_refl).
    rewrite <- Hrows. now rewrite store_eta.
  - intros Hsome. exists (assign (TaskUpdate.validate body) t). cbn [fst snd rows].
    split; [reflexivity|]. split.
    + apply (find_replaced _ _ _ t Hf). apply assign_id.
    + destruct (assign_fields body t) as (_ & Hd & _). rewrite Hd.
      destruct (Body.description body); [exact Hsome|exact Hsome|discriminate].
Qed.

(** The all-null body on the task of the partial-update test. *)
Lemma update_original_with_nulls :
  wf original_store /\ In original (rows original_store) /\
  app 20 (PUT_task 1 all_null) original_store
  = (ok (TaskJson (TaskResponse.mk 1 "Original" (Some "Keep This") false 10)),
     original_store).
Proof.
  assert (Hwf : wf original_store) by sample_wf.
  assert (Hin : In original (rows original_store)) by (simpl; auto).
  split; [exact Hwf|]. split; [exact Hin|].
  exact (proj1 (update_task_with_nulls_is_identity 20 original_store original
                  all_null Hwf Hin) I I I).
Defined.

(** C10.  A POST /tasks body with a title and with [description] set
    to null creates a task whose [description] is null: the answer is
    200 with that task, and the table gains the row of that task, with
    a null description, after the rows it had.  (The one body of this
    kind that creates no task has [completed] set to null; it is
    answered 422 and nothing is written.)  And the empty string is the
    default of a missing member only: a created task has the
    description [""] only if the body left [description] out or sent
    [""] itself. *)
Theorem create_task_with_null_description now db body title :
  wf db -> Body.title body = Value title ->
  (Body.description body = Null ->
   match Body.completed body with
   | Omitted =>
       app now (POST_tasks body) db = created_task now db title None false
   | Value c =>
       app now (POST_tasks body) db = created_task now db title None c
   | Null => app now (POST_tasks body) db = (unprocessable, db)
   end)
  /\ (forall t,
        fst (app now (POST_tasks body) db) = ok (TaskJson t) ->
        TaskResponse.description t = Some "" ->
        Body.description body = Omitted \/ Body.description body = Value "").
Proof.
  intros Hwf Ht. split.
  - intros Hd.
    destruct (Body.completed body) as [| |c] eqn:Hc.
    + apply (app_POST_tasks_valid now body (TaskCreate.mk title None false) db Hwf).
      unfold TaskCreate.validate. now rewrite Ht, Hd, Hc.
    + apply app_POST_tasks_invalid.
      unfold TaskCreate.validate. now rewrite Ht, Hc.
    + apply (app_POST_tasks_valid now body (TaskCreate.mk title None c) db Hwf).
      unfold TaskCreate.validate. now rewrite Ht, Hd, Hc.
  - intros t Hpost Hempty.
    destruct (TaskCreate.validate body) as [task|] eqn:Hv.
    + rewrite (app_POST_tasks_valid now body task db Hwf Hv) in Hpost.
      cbn [fst] in Hpost. apply (f_equal content) in Hpost. simpl in Hpost.
      injection Hpost as <-. simpl in Hempty.
      unfold TaskCreate.validate in Hv. rewrite Ht in Hv.
      destruct (Body.description body) as [| |d]; [now left| |].
      * destruct (Body.completed body); try discriminate;
          injection Hv as <-; discriminate Hempty.
      * right. destruct (Body.completed body); try discriminate;
          injection Hv as <-; simpl in Hempty; now injection Hempty as ->.
    + rewrite (app_POST_tasks_invalid now body db Hv) in Hpost. discriminate.
Qed.

(** A null description is written to the table as null. *)
Lemma create_with_null_description :
  wf empty_store /\
  app 10 (POST_tasks null_description) empty_store
  = (ok (TaskJson (TaskResponse.mk 1 "X" None false 10)),
     mkStore [Task.mk 1 "X" None false 10] 2).
Proof.
  split; [exact wf_empty|].
  exact (proj1 (create_task_with_null_description 10 empty_store
                  null_description "X" wf_empty eq_refl) eq_refl).
Defined.

(** ** Writes, one after another *)

Section Writes.

Implicit Types (l A B : list Task.t) (r t o : Task.t) (i j : Z) (w : Write).

Lemma step_others i A l : others i l -> flat_map (step i A) l = l.
Proof.
  induction 1 as [|r l Hr _ IH]; simpl; [reflexivity|].
  unfold step at 1. now rewrite Hr, IH.
Qed.

Lemma step_replace i o l :
  map (fun r => if has_id i r then o else r) l = flat_map (step i [o]) l.
Proof.
  induction l as [|r l IH]; simpl; [reflexivity|].
  unfold step at 1. rewrite IH. now destruct (has_id i r).
Qed.

Lemma step_filter i l :
  filter (fun r => negb (has_id i r)) l = flat_map (step i []) l.
Proof.
  induction l as [|r l IH]; simpl; [reflexivity|].
  unfold step at 1. rewrite IH. now destruct (has_id i r).
Qed.

Lemma replacement_ids i w l :
  Forall (fun a => Task.id a = i) (replacement i w l).
Proof.
  destruct w as [body|]; simpl; [|constructor].
  destruct (find (has_id i) l) as [t|] eqn:Hf; constructor; [|constructor].
  rewrite assign_id. now apply find_some_id in Hf.
Qed.

Lemma find_skip j A l :
  others j A -> find (has_id j) (A ++ l) = find (has_id j) l.
Proof.
  induction 1 as [|a A Ha _ IH]; simpl; [reflexivity|]. now rewrite Ha.
Qed.

Lemma others_of_id i j A :
  i <> j -> Forall (fun a => Task.id a = i) A -> others j A.
Proof.
  intros Hij H. unfold others. eapply Forall_impl; [|exact H].
  simpl. intros a Ha. apply has_id_false. congruence.
Qed.

Lemma find_step_other i j A l :
  i <> j -> Forall (fun a => Task.id a = i) A ->
  find (has_id j) (flat_map (step i A) l) = find (has_id j) l.
Proof.
  intros Hij HA. induction l as [|r l IH]; simpl; [reflexivity|].
  unfold step at 1. destruct (has_id i r) eqn:E.
  - rewrite (find_skip j A _ (others_of_id i j A Hij HA)), IH.
    apply has_id_true in E.
    assert (Hr : has_id j r = false) by (apply has_id_false; congruence).
    now rewrite Hr.
  - simpl. now rewrite IH.
Qed.

(** A write does not move what the id of another task finds. *)
Lemma find_write_other i j w l :
  i <> j -> find (has_id j) (write_rows i w l) = find (has_id j) l.
Proof.
  intros Hij. apply find_step_other; [exact Hij|apply replacement_ids].
Qed.

Lemma step_step i j A B l :
  i <> j ->
  Forall (fun a => Task.id a = i) A -> Forall (fun b => Task.id b = j) B ->
  flat_map (step j B) (flat_map (step i A) l)
  = flat_map (step i A) (flat_map (step j B) l).
Proof.
  intros Hij HA HB.
  assert (Hji : j <> i) by congruence.
  induction l as [|r l IH]; simpl; [reflexivity|].
  rewrite !flat_map_app, IH. f_equal.
  unfold step at 2 4.
  destruct (has_id i r) eqn:Ei; destruct (has_id j r) eqn:Ej.
  - apply has_id_true in Ei, Ej. congruence.
  - simpl. unfold step at 2. rewrite Ei, app_nil_r.
    now apply step_others, (others_of_id i j).
  - simpl. unfold step at 1. rewrite Ej, app_nil_r.
    symmetry. now apply step_others, (others_of_id j i).
  - simpl. unfold step. now rewrite Ei, Ej.
Qed.

Lemma replacement_write_other i j w w' l :
  i <> j -> replacement j w' (write_rows i w l) = replacement j w' l.
Proof.
  intros Hij. destruct w' as [body|]; simpl; [|reflexivity].
  now rewrite (find_write_other i j w l Hij).
Qed.

Lemma write_rows_comm i j w w' l :
  i <> j ->
  write_rows j w' (write_rows i w l) = write_rows i w (write_rows j w' l).
Proof.
  intros Hij. assert (Hji : j <> i) by congruence.
  unfold write_rows at 1 3.
  rewrite (replacement_write_other i j w w' l Hij).
  rewrite (replacement_write_other j i w' w l Hji).
  unfold write_rows.
  apply step_step; [exact Hij|apply replacement_ids|apply replacement_ids].
Qed.

Lemma write_response_other i j w w' l :
  i <> j -> write_response j w' (write_rows i w l) = write_response j w' l.
Proof.
  intros Hij. unfold write_response.
  now rewrite (find_write_other i j w l Hij).
Qed.

(** A write answers by what its id finds, and rewrites the rows. *)
Lemma app_write now i w db :
  app now (write_request i w) db
  = (write_response i w (rows db),
     mkStore (write_rows i w (rows db)) (next_id db)).
Proof.
  unfold write_response, write_rows.
  destruct w as [body|]; simpl write_request; simpl replacement;
    destruct (find (has_id i) (rows db)) as [t|] eqn:Hf.
  - rewrite (app_PUT_task_found now i body db t Hf). now rewrite step_replace.
  - rewrite (app_PUT_task_missing now i body db Hf).
    now rewrite (step_others i [] _ (find_none_others i _ Hf)), store_eta.
  - rewrite (app_DELETE_task_found now i db t Hf). now rewrite step_filter.
  - rewrite (app_DELETE_task_missing now i db Hf).
    now rewrite (step_others i [] _ (find_none_others i _ Hf)), store_eta.
Qed.

End Writes.

(** ** Further properties of the routes *)

Lemma present_find i db :
  present i db
  = match find (has_id i) (rows db) with Some _ => true | None => false end.
Proof.
  unfold present, ids. induction (rows db) as [|r l IH]; simpl; [reflexivity|].
  unfold has_id at 1. rewrite (Z.eqb_sym i (Task.id r)).
  destruct (Task.id r =? i); simpl; [reflexivity|exact IH].
Qed.

Lemma find_last i (l : list Task.t) r :
  has_id i r = true -> find (has_id i) (l ++ [r]) <> None.
Proof.
  intros Hr. induction l as [|a l IH]; simpl.
  - now rewrite Hr.
  - now destruct (has_id i a).
Qed.

(** X1.  The three reading routes, GET /, GET /tasks and
    GET /tasks/{id}, leave the table exactly as it was, whether they
    answer 200 or 404. *)
Theorem reads_leave_store_unchanged now db task_id :
  snd (app now GET_root db) = db
  /\ snd (app now GET_tasks db) = db
  /\ snd (app now (GET_task task_id) db) = db.
Proof.
  split; [reflexivity|]. split; [reflexivity|].
  destruct (find (has_id task_id) (rows db)) as [t|] eqn:Hf.
  - now rewrite (app_GET_task_found now task_id db t Hf).
  - now rewrite (app_GET_task_missing now task_id db Hf).
Qed.

(** X2.  The handlers [get_task], [update_task] and [delete_task]
    answer 200 when a row of the table has the id and 404 when none
    has; for [update_task] whatever the validated [TaskUpdate] object
    it is given. *)
Theorem by_id_status_is_presence db task_id (task : TaskUpdate.t) :
  let status := if present task_id db then 200 else 404 in
  status_code (fst (respond task_json (get_task task_id) db)) = status
  /\ status_code (fst (respond task_json (update_task task_id task) db))
     = status
  /\ status_code (fst (respond MessageJson (delete_task task_id) db)) = status.
Proof.
  intros status. subst status. rewrite present_find. unfold respond.
  destruct (find (has_id task_id) (rows db)) as [t|] eqn:Hf.
  - rewrite (get_task_found task_id db t Hf).
    rewrite (update_task_found task_id task db t Hf).
    rewrite (delete_task_found task_id db t Hf).
    repeat split.
  - rewrite (get_task_missing task_id db Hf).
    rewrite (update_task_missing task_id task db Hf).
    rewrite (delete_task_missing task_id db Hf).
    repeat split.
Qed.

(** X4.  A PUT or DELETE on one id and a PUT or DELETE on another id
    can be served in either order: the table ends up the same, and
    each request gets the answer it would get if it came first. *)
Theorem writes_to_different_tasks_commute now1 now2 i j w1 w2 db :
  i <> j ->
  let after_i := app now1 (write_request i w1) db in
  let after_j := app now2 (write_request j w2) db in
  snd (app now2 (write_request j w2) (snd after_i))
  = snd (app now1 (write_request i w1) (snd after_j))
  /\ fst (app now2 (write_request j w2) (snd after_i)) = fst after_j
  /\ fst (app now1 (write_request i w1) (snd after_j)) = fst after_i.
Proof.
  intros Hij after_i after_j. subst after_i after_j.
  assert (Hji : j <> i) by congruence.
  rewrite !app_write. cbn [fst snd rows next_id].
  rewrite (write_rows_comm i j w1 w2 (rows db) Hij).
  rewrite (write_response_other i j w1 w2 (rows db) Hij).
  rewrite (write_response_other j i w2 w1 (rows db) Hji).
  repeat split.
Qed.

(** Completing task 2 and deleting task 1, in both orders. *)
Lemma put_2_and_delete_1_commute :
  1 <> 2 /\
  snd (app 50 (PUT_task 2 completed_true) (snd (app 40 (DELETE_task 1) three_tasks)))
  = snd (app 40 (DELETE_task 1) (snd (app 50 (PUT_task 2 completed_true) three_tasks))).
Proof.
  assert (H : 1 <> 2) by discriminate.
  split; [exact H|].
  exact (proj1 (writes_to_different_tasks_commute 40 50 1 2 Delete
                  (Put completed_true) three_tasks H)).
Defined.

(** X5.  A PUT or DELETE on one id does not change what
    GET /tasks/{id} answers for any other id. *)
Theorem writes_leave_other_tasks_as_read now now' i j w db :
  i <> j ->
  fst (app now' (GET_task j) (snd (app now (write_request i w) db)))
  = fst (app now' (GET_task j) db).
Proof.
  intros Hij. rewrite app_write. cbn [snd].
  pose proof (find_write_other i j w (rows db) Hij) as Hf.
  destruct (find (has_id j) (rows db)) as [t|] eqn:E.
  - rewrite (app_GET_task_found now' j db t E).
    now rewrite (app_GET_task_found now' j
                   (mkStore (write_rows i w (rows db)) (next_id db)) t Hf).
  - rewrite (app_GET_task_missing now' j db E).
    now rewrite (app_GET_task_missing now' j
                   (mkStore (write_rows i w (rows db)) (next_id db)) Hf).
Qed.

(** Task 3 after task 2 is deleted. *)
Lemma task_3_after_delete_2 :
  2 <> 3 /\
  fst (app 50 (GET_task 3) (snd (app 40 (DELETE_task 2) three_tasks)))
  = ok (TaskJson (TaskResponse.mk 3 "Task 3" (Some "") false 30)).
Proof.
  assert (H : 2 <> 3) by discriminate.
  split; [exact H|].
  pose proof (writes_leave_other_tasks_as_read 40 50 2 3 Delete three_tasks H)
    as Hread.
  cbn [write_request] in Hread. now rewrite Hread.
Defined.

Section PutTwice.

Implicit Types (t : Task.t) (body : Body.t) (i : Z).

(** The assignments of [update_task], field by field. *)
Lemma assign_eq task t :
  assign task t
  = Task.mk (Task.id t)
      (match TaskUpdate.title task with Some v => v | None => Task.title t end)
      (match TaskUpdate.description task with
       | Some v => Some v
       | None => Task.description t
       end)
      (match TaskUpdate.completed task with
       | Some v => v
       | None => Task.completed t
       end)
      (Task.created_at t).
Proof.
  unfold assign.
  destruct t, (TaskUpdate.title task), (TaskUpdate.description task),
    (TaskUpdate.completed task); reflexivity.
Qed.

Lemma assign_overlay earlier later t :
  assign (TaskUpdate.validate later) (assign (TaskUpdate.validate earlier) t)
  = assign (TaskUpdate.validate (overlay earlier later)) t.
Proof.
  rewrite !assign_eq. unfold TaskUpdate.validate, overlay. simpl.
  f_equal.
  - now destruct (Body.title later), (Body.title earlier).
  - now destruct (Body.description later), (Body.description earlier).
  - now destruct (Body.completed later), (Body.completed earlier).
Qed.

Lemma assign_twice body t :
  assign (TaskUpdate.validate body) (assign (TaskUpdate.validate body) t)
  = assign (TaskUpdate.validate body) t.
Proof.
  rewrite !assign_eq. unfold TaskUpdate.validate. simpl. f_equal.
  - now destruct (Body.title body).
  - now destruct (Body.description body).
  - now destruct (Body.completed body).
Qed.

Lemma replace_replace i (o o' : Task.t) (l : list Task.t) :
  Task.id o = i ->
  map (fun r => if has_id i r then o' else r)
      (map (fun r => if has_id i r then o else r) l)
  = map (fun r => if has_id i r then o' else r) l.
Proof.
  intros Ho. apply has_id_true in Ho.
  rewrite map_map. apply map_ext. intros r.
  destruct (has_id i r) eqn:E; [now rewrite Ho|now rewrite E].
Qed.

(** Two PUTs on one id, the second on the table the first left. *)
Lemma app_PUT_PUT now now' i earlier later db :
  app now' (PUT_task i later) (snd (app now (PUT_task i earlier) db))
  = match find (has_id i) (rows db) with
    | Some t =>
        let t' := assign (TaskUpdate.validate later)
                         (assign (TaskUpdate.validate earlier) t) in
        (ok (task_json t'),
         mkStore (map (fun r => if has_id i r then t' else r) (rows db))
                 (next_id db))
    | None => (task_not_found, db)
    end.
Proof.
  destruct (find (has_id i) (rows db)) as [t|] eqn:Hf.
  - rewrite (app_PUT_task_found now i earlier db t Hf). cbn [snd].
    assert (Hi : Task.id (assign (TaskUpdate.validate earlier) t) = i).
    { rewrite assign_id. now apply find_some_id in Hf. }
    rewrite (app_PUT_task_found now' i later _
               (assign (TaskUpdate.validate earlier) t)).
    + cbn [rows next_id]. now rewrite (replace_replace i _ _ _ Hi).
    + cbn [rows]. now apply (find_replaced i _ (rows db) t).
  - rewrite (app_PUT_task_missing now i earlier db Hf). cbn [snd].
    now rewrite (app_PUT_task_missing now' i later db Hf).
Qed.

End PutTwice.

(** X6.  PUT /tasks/{id} is idempotent: the same body sent a second
    time gets the same answer as the first time and leaves the table
    as the first PUT left it (404 both times if no row has the id). *)
Theorem put_is_idempotent now now' task_id body db :
  app now' (PUT_task task_id body) (snd (app now (PUT_task task_id body) db))
  = app now (PUT_task task_id body) db.
Proof.
  rewrite app_PUT_PUT.
  destruct (find (has_id task_id) (rows db)) as [t|] eqn:Hf.
  - cbv zeta. rewrite assign_twice.
    now rewrite (app_PUT_task_found now task_id body db t Hf).
  - now rewrite (app_PUT_task_missing now task_id body db Hf).
Qed.

(** X7.  Of two PUTs on one id the later one wins field by field:
    together they answer, and leave the table, as one PUT whose body
    gives each field the later value where the later body has one and
    the earlier value otherwise. *)
Theorem later_put_wins now now' task_id earlier later db :
  app now' (PUT_task task_id later)
      (snd (app now (PUT_task task_id earlier) db))
  = app now (PUT_task task_id (overlay earlier later)) db.
Proof.
  rewrite app_PUT_PUT.
  destruct (find (has_id task_id) (rows db)) as [t|] eqn:Hf.
  - cbv zeta. rewrite assign_overlay.
    now rewrite (app_PUT_task_found now task_id (overlay earlier later) db t Hf).
  - now rewrite (app_PUT_task_missing now task_id (overlay earlier later) db Hf).
Qed.

(** X8.  A GET /tasks/{id} right after a PUT on the same id answers
    exactly what the PUT answered: the updated task, or the same 404. *)
Theorem get_task_after_update_task now now' task_id body db :
  fst (app now' (GET_task task_id) (snd (app now (PUT_task task_id body) db)))
  = fst (app now (PUT_task task_id body) db).
Proof.
  destruct (find (has_id task_id) (rows db)) as [t|] eqn:Hf.
  - rewrite (app_PUT_task_found now task_id body db t Hf). cbn [fst snd].
    rewrite (app_GET_task_found now' task_id _
               (assign (TaskUpdate.validate body) t)); [reflexivity|].
    cbn [rows]. apply (find_replaced task_id _ (rows db) t Hf).
    rewrite assign_id. now apply find_some_id in Hf.
  - rewrite (app_PUT_task_missing now task_id body db Hf). cbn [fst snd].
    now rewrite (app_GET_task_missing now' task_id db Hf).
Qed.

Section Creation.

Implicit Types (db : Store) (body : Body.t) (l : list Task.t).

Lemma validate_none_iff body :
  TaskCreate.validate body = None
  <-> unset (Body.title body) \/ Body.completed body = Null.
Proof.
  unfold TaskCreate.validate.
  destruct (Body.title body), (Body.completed body); simpl; split;
    try (intros _; auto; fail); try discriminate;
    intros [H|H]; (contradiction || discriminate).
Qed.

(** What an accepted POST writes does not depend on the refresh. *)
Lemma app_POST_store now body db :
  snd (app now (POST_tasks body) db)
  = match TaskCreate.validate body with
    | Some task =>
        mkStore (rows db ++ [inserted now task db]) (next_id db + 1)
    | None => db
    end.
Proof.
  simpl. destruct (TaskCreate.validate body) as [task|]; [|reflexivity].
  unfold respond, create_task, bind, add_commit, refresh, ret.
  cbn [rows next_id].
  match goal with
  | |- context [find (has_id ?i) (?l ++ [?r])] =>
      destruct (find (has_id i) (l ++ [r]))
  end; reflexivity.
Qed.

Lemma app_POST_status now body db :
  status_code (fst (app now (POST_tasks body) db))
  = match TaskCreate.validate body with Some _ => 200 | None => 422 end.
Proof.
  simpl. destruct (TaskCreate.validate body) as [task|]; [|reflexivity].
  unfold respond, create_task, bind, add_commit, refresh, ret.
  cbn [rows next_id].
  match goal with
  | |- context [find (has_id ?i) (?l ++ [?r])] =>
      pose proof (find_last i l r (Z.eqb_refl _)) as Hlast;
      destruct (find (has_id i) (l ++ [r]))
  end; [reflexivity|contradiction].
Qed.

Lemma find_app_some (p : Task.t -> bool) l l' x :
  find p l = Some x -> find p (l ++ l') = Some x.
Proof.
  induction l as [|r l IH]; simpl; [discriminate|].
  now destruct (p r).
Qed.

End Creation.

(** X9.  A POST /tasks whose body has no title (missing or null), or
    has [completed] set to null, is answered 422 and writes nothing.
    A body with a string for [title] and a boolean or nothing for
    [completed] is answered 200 and adds one row to the table,
    whatever it has for [description] (a string, null or nothing). *)
Theorem post_without_title_is_rejected now db body :
  match Body.title body, Body.completed body with
  | Value _, (Omitted | Value _) =>
      status_code (fst (app now (POST_tasks body) db)) = 200
      /\ List.length (rows (snd (app now (POST_tasks body) db)))
         = S (List.length (rows db))
  | _, _ => app now (POST_tasks body) db = (unprocessable, db)
  end.
Proof.
  pose proof (validate_none_iff body) as Hnone.
  pose proof (app_POST_status now body db) as Hstatus.
  pose proof (app_POST_store now body db) as Hstore.
  assert (Hrej : unset (Body.title body) \/ Body.completed body = Null ->
                 app now (POST_tasks body) db = (unprocessable, db)).
  { intros H. apply app_POST_tasks_invalid. now apply Hnone. }
  assert (Hacc : ~ (unset (Body.title body) \/ Body.completed body = Null) ->
                 status_code (fst (app now (POST_tasks body) db)) = 200
                 /\ List.length (rows (snd (app now (POST_tasks body) db)))
                    = S (List.length (rows db))).
  { intros H. rewrite Hstatus, Hstore.
    destruct (TaskCreate.validate body) as [task|].
    - split; [reflexivity|]. cbn [rows]. rewrite length_app. simpl. lia.
    - contradiction H. now apply Hnone. }
  destruct (Body.title body) as [| |title], (Body.completed body) as [| |c];
    simpl in Hrej, Hacc;
    first [ apply Hrej; auto; fail
          | apply Hacc; intros [H|H]; (contradiction || discriminate) ].
Qed.

Section DeleteMany.

Implicit Types (db : Store) (l : list Task.t) (ds : list Z).

Lemma app_DELETE_store now i db :
  snd (app now (DELETE_task i) db)
  = mkStore (filter (fun r => negb (has_id i r)) (rows db)) (next_id db).
Proof.
  destruct (find (has_id i) (rows db)) as [t|] eqn:Hf.
  - now rewrite (app_DELETE_task_found now i db t Hf).
  - rewrite (app_DELETE_task_missing now i db Hf). cbn [snd].
    now rewrite (filter_others i _ (find_none_others i _ Hf)), store_eta.
Qed.

Lemma filter_twice (p q : Task.t -> bool) l :
  filter q (filter p l) = filter (fun r => p r && q r) l.
Proof.
  induction l as [|r l IH]; simpl; [reflexivity|].
  destruct (p r); simpl; [|exact IH].
  destruct (q r); now rewrite IH.
Qed.

(** A run of DELETEs keeps the rows whose id is not among them. *)
Lemma serve_deletes now ds :
  forall db,
    serve (deletes now ds) db
    = mkStore (filter (fun r => negb (existsb (fun i => has_id i r) ds))
                      (rows db))
              (next_id db).
Proof.
  induction ds as [|i ds IH]; intros db.
  - simpl. rewrite <- (store_eta db) at 1. f_equal.
    induction (rows db) as [|r l IHl]; simpl; [reflexivity|]. now rewrite <- IHl.
  - cbn [deletes map serve]. fold (deletes now ds).
    rewrite IH, app_DELETE_store. cbn [rows next_id].
    rewrite filter_twice. f_equal. apply filter_ext. intros r.
    cbn [existsb]. now rewrite negb_orb.
Qed.

Lemma filter_nothing (p : Task.t -> bool) l :
  (forall r, In r l -> p r = false) -> filter p l = [].
Proof.
  induction l as [|r l IH]; simpl; intros H; [reflexivity|].
  rewrite (H r (or_introl eq_refl)). apply IH. intros x Hx. apply H. now right.
Qed.

End DeleteMany.

(** X10.  DELETEs for a list of ids that holds every id of the table,
    served one after the other in the order of the list, leave the
    table without rows; GET /tasks then answers the empty array. *)
Theorem deleting_every_task_empties_the_table now now' ds db :
  incl (ids db) ds ->
  serve (deletes now ds) db = mkStore [] (next_id db)
  /\ fst (app now' GET_tasks (serve (deletes now ds) db))
     = ok (TaskListJson []).
Proof.
  intros Hincl.
  assert (H : serve (deletes now ds) db = mkStore [] (next_id db)).
  { rewrite serve_deletes. f_equal. apply filter_nothing.
    intros r Hr. apply negb_false_iff, existsb_exists.
    exists (Task.id r). split; [|apply has_id_self].
    apply Hincl. unfold ids. now apply in_map. }
  split; [exact H|]. now rewrite H.
Qed.

(** The three tasks deleted from the last to the first. *)
Lemma delete_three_tasks :
  incl (ids three_tasks) [3; 2; 1] /\
  serve (deletes 40 [3; 2; 1]) three_tasks = mkStore [] 4.
Proof.
  assert (H : incl (ids three_tasks) [3; 2; 1]).
  { intros i. simpl. intuition. }
  split; [exact H|].
  exact (proj1 (deleting_every_task_empties_the_table 40 50 [3; 2; 1]
                  three_tasks H)).
Defined.

(** X11.  On a table with unique ids GET /tasks and GET /tasks/{id}
    agree: a payload is an entry of the listing exactly when the GET
    on its id answers 200 with that payload. *)
Theorem listing_agrees_with_get_task now db e :
  wf db ->
  In e (map TaskResponse.from_attributes (rows db))
  <-> fst (app now (GET_task (TaskResponse.id e)) db) = ok (TaskJson e).
Proof.
  intros Hwf. split.
  - intros Hin. apply in_map_iff in Hin. destruct Hin as (t & <- & Hin).
    change (TaskResponse.id (TaskResponse.from_attributes t)) with (Task.id t).
    now rewrite (app_GET_task_found now (Task.id t) db t (wf_find db t Hwf Hin)).
  - destruct (find (has_id (TaskResponse.id e)) (rows db)) as [t|] eqn:Hf.
    + rewrite (app_GET_task_found now _ db t Hf). cbn [fst].
      intros H. apply (f_equal content) in H. simpl in H.
      injection H as <-. apply in_map. now apply find_some in Hf.
    + rewrite (app_GET_task_missing now _ db Hf). discriminate.
Qed.

(** The second entry of the listing of three, read by its id. *)
Lemma second_entry_is_task_2 :
  wf three_tasks /\
  fst (app 40 (GET_task 2) three_tasks)
  = ok (TaskJson (TaskResponse.mk 2 "Task 2" (Some "") false 20)).
Proof.
  assert (Hwf : wf three_tasks) by sample_wf.
  split; [exact Hwf|].
  apply (proj1 (listing_agrees_with_get_task 40 three_tasks
                  (TaskResponse.mk 2 "Task 2" (Some "") false 20) Hwf)).
  simpl. auto.
Defined.

(** X12.  A DELETE on the id that an accepted POST answered with
    answers 200 and leaves the rows of the table as they were before
    the POST. *)
Theorem delete_after_create_restores_rows now now' body task db :
  wf db -> TaskCreate.validate body = Some task ->
  exists t,
    fst (app now (POST_tasks body) db) = ok (TaskJson t)
    /\ fst (app now' (DELETE_task (TaskResponse.id t))
              (snd (app now (POST_tasks body) db)))
       = ok (MessageJson "Task deleted successfully")
    /\ rows (snd (app now' (DELETE_task (TaskResponse.id t))
                   (snd (app now (POST_tasks body) db))))
       = rows db.
Proof.
  intros Hwf Hv.
  exists (TaskResponse.from_attributes (inserted now task db)).
  rewrite (app_POST_tasks_valid now body task db Hwf Hv). cbn [fst snd].
  split; [reflexivity|].
  change (TaskResponse.id (TaskResponse.from_attributes (inserted now task db)))
    with (next_id db).
  pose proof (wf_next_id_fresh db Hwf) as Hfresh.
  rewrite (app_DELETE_task_found now' (next_id db) _ (inserted now task db)).
  - cbn [fst snd rows]. split; [reflexivity|].
    rewrite (filter_middle (next_id db) (rows db) (inserted now task db) []
               Hfresh (Forall_nil _) eq_refl).
    apply app_nil_r.
  - cbn [rows]. now apply find_middle.
Qed.

(** A fourth task created and deleted again. *)
Lemma create_and_delete_fourth_task :
  wf three_tasks /\
  rows (snd (app 50 (DELETE_task 4)
               (snd (app 40 (POST_tasks (only_title "Task 4")) three_tasks))))
  = rows three_tasks.
Proof.
  assert (Hwf : wf three_tasks) by sample_wf.
  split; [exact Hwf|].
  destruct (delete_after_create_restores_rows 40 50 (only_title "Task 4")
              (TaskCreate.mk "Task 4" (Some "") false) three_tasks Hwf eq_refl)
    as (t & Hpost & _ & Hrows).
  assert (Hid : TaskResponse.id t = 4).
  { apply (f_equal content) in Hpost. simpl in Hpost.
    injection Hpost as <-. reflexivity. }
  rewrite Hid in Hrows. exact Hrows.
Defined.

(** X13.  After [n] accepted POSTs in a row GET /tasks lists the
    entries it listed before and then [n] new ones, in the order of
    the POSTs, each with the title its body sent and the store's time
    of its insert. *)
Theorem listing_after_posts now l db :
  wf db ->
  Forall (fun p => TaskCreate.validate (snd p) <> None) l ->
  exists created,
    fst (app now GET_tasks (serve (posts l) db))
    = ok (TaskListJson (map TaskResponse.from_attributes (rows db) ++ created))
    /\ List.length created = List.length l
    /\ map (fun e => Value (TaskResponse.title e)) created
       = map (fun p => Body.title (snd p)) l
    /\ map TaskResponse.created_at created = map fst l.
Proof.
  intros Hwf Hok.
  destruct (serve_posts l db Hwf Hok) as (created & Hrows & Hat & Htitles).
  exists (map TaskResponse.from_attributes created).
  rewrite app_GET_tasks. cbn [fst]. rewrite Hrows, map_app.
  split; [reflexivity|]. split.
  - rewrite length_map. rewrite <- (length_map Task.created_at created), Hat.
    apply length_map.
  - rewrite !map_map. split; [exact Htitles|exact Hat].
Qed.

(** Two creations on the empty table. *)
Lemma listing_after_two_posts :
  let l := [(10, only_title "Task 1"); (20, only_title "Task 2")] in
  wf empty_store /\
  Forall (fun p => TaskCreate.validate (snd p) <> None) l /\
  exists created,
    fst (app 30 GET_tasks (serve (posts l) empty_store))
    = ok (TaskListJson created)
    /\ List.length created = 2%nat
    /\ map TaskResponse.created_at created = [10; 20].
Proof.
  intros l.
  assert (Hok : Forall (fun p => TaskCreate.validate (snd p) <> None) l).
  { repeat constructor; discriminate. }
  split; [exact wf_empty|]. split; [exact Hok|].
  destruct (listing_after_posts 30 l empty_store wf_empty Hok)
    as (created & Hget & Hlen & _ & Hat).
  exists created. split; [exact Hget|]. split; [exact Hlen|exact Hat].
Defined.

(** X14.  A POST /tasks, accepted or not, does not change what
    GET /tasks/{id} answers for an id that a row of the table has. *)
Theorem post_leaves_tasks_as_read now now' body task_id db :
  In task_id (ids db) ->
  fst (app now' (GET_task task_id) (snd (app now (POST_tasks body) db)))
  = fst (app now' (GET_task task_id) db).
Proof.
  intros Hin.
  destruct (find (has_id task_id) (rows db)) as [t|] eqn:Hf.
  - rewrite (app_GET_task_found now' task_id db t Hf).
    rewrite app_POST_store.
    destruct (TaskCreate.validate body) as [task|].
    + rewrite (app_GET_task_found now' task_id _ t); [reflexivity|].
      cbn [rows]. now apply find_app_some.
    + now rewrite (app_GET_task_found now' task_id db t Hf).
  - apply absent_find in Hf. contradiction.
Qed.

(** Task 1 after a fourth task is created. *)
Lemma task_1_after_post :
  In 1 (ids three_tasks) /\
  fst (app 50 (GET_task 1)
         (snd (app 40 (POST_tasks (only_title "Task 4")) three_tasks)))
  = ok (TaskJson (TaskResponse.mk 1 "Task 1" (Some "") false 10)).
Proof.
  assert (H : In 1 (ids three_tasks)) by (simpl; auto).
  split; [exact H|].
  now rewrite (post_leaves_tasks_as_read 40 50 (only_title "Task 4") 1
                 three_tasks H).
Defined.
